(** * school_pay: the authentication and WebSocket server ([server.js])

    A shallow embedding of the Express route handlers and of the WebSocket
    connection handler of [server.js], and the properties of its
    register / login / logout / profile / groups surface.

    Conventions of the embedding:
    - a parsed JSON request body is a JavaScript object whose fields hold
      strings, booleans or [null] (user names, passwords and profile
      fields are strings in the data model); reading a field that is
      absent yields [undefined];
    - the module-level [users] is an ECMAScript [Map]: an insertion-ordered
      list of entries whose keys are compared by SameValueZero;
    - [hashPassword] and [validatePassword] are called by the handlers but
      defined nowhere in the sources: they are the two operations of the
      [PasswordCapability] interface;
    - a handler is a function from the server state to the new state and
      the response; [None] stands for an exception thrown by the handler. *)

From stdpp Require Import base strings gmap list.

(** ** JavaScript values and objects *)

Inductive jsval : Type :=
  | JUndefined
  | JNull
  | JBool (b : bool)
  | JStr (s : string).

#[global] Instance jsval_eq_dec : EqDecision jsval.
Proof. solve_decision. Defined.

(** An object literal or a parsed JSON object: own properties by name. *)
Abbreviation jsobject := (gmap string jsval).

(** [o.k]: the value of property [k], [undefined] when [o] has none. *)
Definition prop (o : jsobject) (k : string) : jsval :=
  default JUndefined (o !! k).

(** [{ ...o, k: v }] *)
Definition spread_with (o : jsobject) (k : string) (v : jsval) : jsobject :=
  <[k := v]> o.

(** ** The ECMAScript [Map]

    [Map.prototype.set] overwrites the value of the entry whose key is the
    same as [k] when there is one and appends a new entry otherwise;
    [has] and [get] scan the entries for the key. *)

Module JSMap.

Abbreviation t V := (list (jsval * V)).

Definition empty {V : Type} : t V := [].

Fixpoint has {V : Type} (m : t V) (k : jsval) : bool :=
  match m with
  | [] => false
  | (k', _) :: m' => if decide (k' = k) then true else has m' k
  end.

Fixpoint get {V : Type} (m : t V) (k : jsval) : option V :=
  match m with
  | [] => None
  | (k', v) :: m' => if decide (k' = k) then Some v else get m' k
  end.

Fixpoint set {V : Type} (m : t V) (k : jsval) (v : V) : t V :=
  match m with
  | [] => [(k, v)]
  | (k', v') :: m' =>
      if decide (k' = k) then (k', v) :: m' else (k', v') :: set m' k v
  end.

Definition keys {V : Type} (m : t V) : list jsval := m.*1.

(** The records stored under key [k]. *)
Definition records {V : Type} (m : t V) (k : jsval) : list V :=
  (filter (λ e, e.1 = k) m).*2.

End JSMap.

(** ** Requests and responses *)

Record request : Type := { body : jsobject }.

Inductive payload : Type :=
  | Json (o : jsobject)
  | File (path : string)
  | Redirect (url : string).

Record response : Type := { statusCode : nat; sent : option payload }.

(** The response object Express hands to a handler. *)
Definition fresh_res : response := {| statusCode := 200; sent := None |}.

(** [res.status(c)] *)
Definition status (c : nat) (res : response) : response :=
  {| statusCode := c; sent := sent res |}.

(** [res.json(o)] *)
Definition json (o : jsobject) (res : response) : response :=
  {| statusCode := statusCode res; sent := Some (Json o) |}.

(** [res.sendFile(__dirname + path)]: the handler hands the page to Express
    and returns.  [File path] records that hand-over; whether the page is
    then served or Express answers for a file it cannot read is decided
    outside the handler and is not part of the embedding. *)
Definition sendFile (path : string) (res : response) : response :=
  {| statusCode := statusCode res; sent := Some (File path) |}.

(** [res.redirect(url)]: a 302 with the target location. *)
Definition redirect (url : string) (res : response) : response :=
  {| statusCode := 302; sent := Some (Redirect url) |}.

(** [{ message: m }] and [{ error: e }] *)
Definition message_obj (m : string) : jsobject := {[ "message" := JStr m ]}.
Definition error_obj (e : string) : jsobject := {[ "error" := JStr e ]}.

(** ** WebSocket connections *)

Inductive ready_state : Type := OPEN | CLOSED.

#[global] Instance ready_state_eq_dec : EqDecision ready_state.
Proof. solve_decision. Defined.

(** The only listener the server ever installs: the ['message'] callback
    that logs what it received. *)
Inductive listener : Type := LogReceived.

(** A socket: its state, what the server sent on it (each payload is the
    object given to [JSON.stringify]), and its ['message'] listeners. *)
Record websocket : Type := {
  readyState : ready_state;
  outbox : list jsobject;
  on_message : list listener
}.

Definition accepted_socket : websocket :=
  {| readyState := OPEN; outbox := []; on_message := [] |}.

(** [ws.send(JSON.stringify(o))]: throws on a socket that is not open. *)
Definition ws_send (o : jsobject) (ws : websocket) : option websocket :=
  match readyState ws with
  | OPEN => Some {| readyState := OPEN;
                    outbox := outbox ws ++ [o];
                    on_message := on_message ws |}
  | CLOSED => None
  end.

(** [ws.on('message', l)] *)
Definition ws_on_message (l : listener) (ws : websocket) : websocket :=
  {| readyState := readyState ws;
     outbox := outbox ws;
     on_message := on_message ws ++ [l] |}.

Definition ws_closed (ws : websocket) : websocket :=
  {| readyState := CLOSED;
     outbox := outbox ws;
     on_message := on_message ws |}.

(** ** The server state *)

Record server : Type := {
  users : JSMap.t jsobject;
  sockets : list websocket;
  console : list (list string)
}.

(** The state once the module is loaded and the server listens:
    [users = new Map()], no connection, the start-up line logged. *)
Definition boot : server :=
  {| users := JSMap.empty;
     sockets := [];
     console := [["Server running on port 3000"]] |}.

Definition set_users (u : JSMap.t jsobject) (s : server) : server :=
  {| users := u; sockets := sockets s; console := console s |}.

Definition set_sockets (l : list websocket) (s : server) : server :=
  {| users := users s; sockets := l; console := console s |}.

Definition console_log (args : list string) (s : server) : server :=
  {| users := users s; sockets := sockets s; console := console s ++ [args] |}.

(** ** The password capability *)

Class PasswordCapability : Type := {
  hashPassword : jsval → jsval;
  validatePassword : jsval → jsval → bool
}.

(** ** The route handlers *)

Section Handlers.

Context `{PasswordCapability}.

(** [app.get("/")] *)
Definition get_root (req : request) (res : response) (s : server)
  : option (server * response) :=
  Some (s, redirect "/login" res).

(** [app.get("/register")] *)
Definition get_register (req : request) (res : response) (s : server)
  : option (server * response) :=
  Some (s, sendFile "/register.html" res).

(** [app.post("/register")] *)
Definition post_register (req : request) (res : response) (s : server)
  : option (server * response) :=
  let user := body req in
  let userName := prop user "userName" in
  let password := prop user "password" in
  if JSMap.has (users s) userName then
    Some (s, json (error_obj "Username already taken") (status 400 res))
  else
    let s' :=
      set_users
        (JSMap.set (users s) userName
           (spread_with user "password" (hashPassword password))) s in
    Some (s', json (message_obj "Registration successful! Please log in.")
                (status 200 res)).

(** [app.get("/login")] *)
Definition get_login (req : request) (res : response) (s : server)
  : option (server * response) :=
  Some (s, sendFile "/login.html" res).

(** [app.post("/login")].  Reading [user.password] throws when
    [users.get] answered [undefined]. *)
Definition post_login (req : request) (res : response) (s : server)
  : option (server * response) :=
  let userName := prop (body req) "userName" in
  let password := prop (body req) "password" in
  if JSMap.has (users s) userName then
    match JSMap.get (users s) userName with
    | Some user =>
        if validatePassword password (prop user "password") then
          Some (s, json (message_obj "Login successful!") (status 200 res))
        else
          Some (s, json (error_obj "Invalid password") (status 400 res))
    | None => None
    end
  else
    Some (s, json (error_obj "Invalid username") (status 400 res)).

(** [app.get("/logout")] *)
Definition get_logout (req : request) (res : response) (s : server)
  : option (server * response) :=
  Some (s, json (message_obj "Logout successful!") (status 200 res)).

(** [app.get("/profile")] *)
Definition get_profile (req : request) (res : response) (s : server)
  : option (server * response) :=
  Some (s, json (message_obj "Profile settings") (status 200 res)).

(** [app.get("/groups")] *)
Definition get_groups (req : request) (res : response) (s : server)
  : option (server * response) :=
  Some (s, json (message_obj "Interest groups") (status 200 res)).

(** ** The WebSocket handlers *)

Definition handshake : jsobject :=
  message_obj "WebSocket connection established".

(** [wss.on('connection', (ws) => ...)]: send the greeting, then install
    the ['message'] listener. *)
Definition on_connection (ws : websocket) (s : server)
  : option (websocket * server) :=
  match ws_send handshake ws with
  | Some ws1 => Some (ws_on_message LogReceived ws1, s)
  | None => None
  end.

(** The body of a ['message'] listener. *)
Definition run_listener (l : listener) (m : string) (s : server) : server :=
  match l with
  | LogReceived => console_log ["Received message:"; m] s
  end.

(** ** Events and runs *)

Inductive route : Type :=
  | GetRoot | GetRegister | PostRegister | GetLogin | PostLogin
  | GetLogout | GetProfile | GetGroups.

Definition dispatch (r : route)
  : request → response → server → option (server * response) :=
  match r with
  | GetRoot => get_root
  | GetRegister => get_register
  | PostRegister => post_register
  | GetLogin => get_login
  | PostLogin => post_login
  | GetLogout => get_logout
  | GetProfile => get_profile
  | GetGroups => get_groups
  end.

Inductive event : Type :=
  | Http (r : route) (req : request)
  | WsConnection
  | WsMessage (i : nat) (m : string)
  | WsClose (i : nat).

(** One event of the event loop.  An HTTP request runs its handler on a
    fresh response object (a handler that throws is answered by Express
    and the state stays as it was); a new connection runs the connection
    handler on the accepted socket; a message on socket [i] runs that
    socket's listeners; a close marks socket [i] closed. *)
Definition step (s : server) (e : event) : server :=
  match e with
  | Http r req =>
      match dispatch r req fresh_res s with
      | Some (s', _) => s'
      | None => s
      end
  | WsConnection =>
      match on_connection accepted_socket s with
      | Some (ws, s') => set_sockets (sockets s' ++ [ws]) s'
      | None => s
      end
  | WsMessage i m =>
      match sockets s !! i with
      | Some ws =>
          match readyState ws with
          | OPEN => foldl (λ s' l, run_listener l m s') s (on_message ws)
          | CLOSED => s
          end
      | None => s
      end
  | WsClose i =>
      match sockets s !! i with
      | Some ws => set_sockets (<[i := ws_closed ws]> (sockets s)) s
      | None => s
      end
  end.

Definition run (s : server) (es : list event) : server := foldl step s es.

(** The response an HTTP request gets in state [s]. *)
Definition respond (r : route) (req : request) (s : server) : option response :=
  snd <$> dispatch r req fresh_res s.

End Handlers.

(** ** A sample capability and sample requests *)

(** A toy digest: tags a string, leaves other values alone. *)
Definition demo_hash (raw : jsval) : jsval :=
  match raw with
  | JStr p => JStr ("#" +:+ p)
  | v => v
  end.

Definition demo_capability : PasswordCapability :=
  {| hashPassword := demo_hash;
     validatePassword := λ raw hashed, bool_decide (demo_hash raw = hashed) |}.

Definition credentials (u p : string) : request :=
  {| body := {[ "userName" := JStr u; "password" := JStr p ]} |}.

Definition signup_form (u p email : string) : request :=
  {| body := {[ "userName" := JStr u; "password" := JStr p;
                "email" := JStr email ]} |}.

Definition alice : request := credentials "alice" "pw1".
Definition alice_bad : request := credentials "alice" "bad".
Definition bob : request := credentials "bob" "x".

(** The server after alice signed up. *)
Definition alice_registered : server :=
  @run demo_capability boot
    [Http PostRegister (signup_form "alice" "pw1" "alice@example.org")].

(** The server after alice signed up, logged in and opened a socket. *)
Definition alice_connected : server :=
  @run demo_capability alice_registered [Http PostLogin alice; WsConnection].

(** The response with status [c] and JSON body [o]. *)
Definition reply (c : nat) (o : jsobject) : response :=
  {| statusCode := c; sent := Some (Json o) |}.

(** * Properties *)

(** ** The [Map] operations *)

Section MapFacts.

Context {V : Type}.
Implicit Types (m : JSMap.t V) (k : jsval) (v : V).

Lemma jsmap_has_keys m k : JSMap.has m k = true ↔ k ∈ JSMap.keys m.
Proof.
  unfold JSMap.keys. induction m as [|[k' v'] m IH]; simpl.
  - split; [discriminate | intros Hin; inversion Hin].
  - rewrite elem_of_cons. destruct (decide (k' = k)) as [->|Hne].
    + split; auto.
    + rewrite IH. split; [auto | intros [Heq | Hin]; [congruence | done]].
Qed.

Lemma jsmap_has_get m k : JSMap.has m k = true ↔ is_Some (JSMap.get m k).
Proof.
  induction m as [|[k' v'] m IH]; simpl.
  - split; [discriminate | intros [x Hx]; discriminate].
  - destruct (decide (k' = k)); [split; eauto | exact IH].
Qed.

Lemma jsmap_has_false_get m k : JSMap.has m k = false ↔ JSMap.get m k = None.
Proof.
  induction m as [|[k' v'] m IH]; simpl; [done|].
  destruct (decide (k' = k)); [split; discriminate | exact IH].
Qed.

Lemma jsmap_get_set_eq m k v : JSMap.get (JSMap.set m k v) k = Some v.
Proof.
  induction m as [|[k' v'] m IH]; simpl.
  - by rewrite decide_True.
  - destruct (decide (k' = k)) as [->|Hne]; simpl.
    + by rewrite decide_True.
    + by rewrite decide_False.
Qed.

Lemma jsmap_get_set_ne m k k' v :
  k ≠ k' → JSMap.get (JSMap.set m k v) k' = JSMap.get m k'.
Proof.
  intros Hne. induction m as [|[k0 v0] m IH]; simpl.
  - by rewrite decide_False.
  - destruct (decide (k0 = k)) as [->|Hk]; simpl.
    + by rewrite !decide_False.
    + by rewrite IH.
Qed.

Lemma jsmap_keys_set_fresh m k v :
  JSMap.has m k = false → JSMap.keys (JSMap.set m k v) = JSMap.keys m ++ [k].
Proof.
  unfold JSMap.keys. induction m as [|[k' v'] m IH]; simpl; [done|].
  destruct (decide (k' = k)); [discriminate|].
  intros Hm. rewrite fmap_cons. simpl. f_equal. by apply IH.
Qed.

Lemma jsmap_keys_set_present m k v :
  JSMap.has m k = true → JSMap.keys (JSMap.set m k v) = JSMap.keys m.
Proof.
  unfold JSMap.keys. induction m as [|[k' v'] m IH]; simpl; [discriminate|].
  destruct (decide (k' = k)); [done|].
  intros Hm. rewrite fmap_cons. simpl. f_equal. by apply IH.
Qed.

(** [set] never introduces a second entry for a key. *)
Lemma jsmap_set_NoDup m k v :
  NoDup (JSMap.keys m) → NoDup (JSMap.keys (JSMap.set m k v)).
Proof.
  intros Hnd. destruct (JSMap.has m k) eqn:Hk.
  - by rewrite jsmap_keys_set_present.
  - rewrite jsmap_keys_set_fresh by done.
    apply NoDup_app. split_and!; [done | | apply NoDup_singleton].
    intros x Hx Hin. apply list_elem_of_singleton in Hin as ->.
    apply jsmap_has_keys in Hx. congruence.
Qed.

(** With distinct keys, a key has at most one record. *)
Lemma jsmap_records_NoDup m k :
  NoDup (JSMap.keys m) → length (JSMap.records m k) ≤ 1.
Proof.
  unfold JSMap.keys, JSMap.records.
  induction m as [|[k' v'] m IH]; [simpl; lia|].
  rewrite fmap_cons, NoDup_cons, filter_cons. intros [Hnotin Hnd].
  cbn [fst]. destruct (decide (k' = k)) as [->|Hne]; [|by apply IH].
  assert (filter (λ e : jsval * V, e.1 = k) m = []) as ->; [|simpl; lia].
  apply elem_of_nil_inv. intros [k0 v0] [Heq Hin]%list_elem_of_filter.
  simpl in Heq. subst k0. apply Hnotin.
  apply list_elem_of_fmap. by exists (k, v0).
Qed.

Lemma jsmap_records_get m k v :
  JSMap.get m k = Some v → v ∈ JSMap.records m k.
Proof.
  unfold JSMap.records. induction m as [|[k' v'] m IH]; [discriminate|].
  rewrite filter_cons. cbn [fst JSMap.get].
  destruct (decide (k' = k)) as [->|Hne]; [|done].
  intros [= ->]. rewrite fmap_cons. apply list_elem_of_here.
Qed.

End MapFacts.

(** ** The handlers *)

Section Properties.

Context `{PasswordCapability}.

Implicit Types (req : request) (res : response) (s : server).

Lemma json_status res c o : json o (status c res) = reply c o.
Proof. reflexivity. Qed.

(** What [post_login] does, by the three paths through it. *)
Lemma post_login_cases req res s :
  let userName := prop (body req) "userName" in
  let password := prop (body req) "password" in
  (JSMap.get (users s) userName = None ∧
   post_login req res s = Some (s, reply 400 (error_obj "Invalid username")))
  ∨ (∃ user, JSMap.get (users s) userName = Some user ∧
       validatePassword password (prop user "password") = false ∧
       post_login req res s = Some (s, reply 400 (error_obj "Invalid password")))
  ∨ (∃ user, JSMap.get (users s) userName = Some user ∧
       validatePassword password (prop user "password") = true ∧
       post_login req res s = Some (s, reply 200 (message_obj "Login successful!"))).
Proof.
  intros userName password. unfold post_login. fold userName password.
  destruct (JSMap.has (users s) userName) eqn:Hhas.
  - apply jsmap_has_get in Hhas as [user Huser]. rewrite Huser.
    destruct (validatePassword password (prop user "password")) eqn:Hv;
      [right; right | right; left]; exists user; by rewrite ?Hv.
  - left. by apply jsmap_has_false_get in Hhas.
Qed.

Lemma post_login_state req res s :
  ∃ r, post_login req res s = Some (s, r).
Proof.
  destruct (post_login_cases req res s) as [[_ ->]|[(?&_&_&->)|(?&_&_&->)]];
    eauto.
Qed.

(** What [post_register] does, by the two paths through it. *)
Lemma post_register_cases req res s :
  let userName := prop (body req) "userName" in
  let password := prop (body req) "password" in
  (JSMap.has (users s) userName = true ∧
   post_register req res s =
     Some (s, reply 400 (error_obj "Username already taken")))
  ∨ (JSMap.has (users s) userName = false ∧
     post_register req res s =
       Some (set_users
               (JSMap.set (users s) userName
                  (spread_with (body req) "password" (hashPassword password))) s,
             reply 200 (message_obj "Registration successful! Please log in."))).
Proof.
  intros userName password. unfold post_register. fold userName password.
  destruct (JSMap.has (users s) userName); [left | right]; done.
Qed.

(** An event either leaves [users] alone or is a registration of a
    user name that was free. *)
Lemma step_users s e :
  users (step s e) = users s
  ∨ ∃ req, e = Http PostRegister req
      ∧ JSMap.has (users s) (prop (body req) "userName") = false
      ∧ users (step s e) =
          JSMap.set (users s) (prop (body req) "userName")
            (spread_with (body req) "password"
               (hashPassword (prop (body req) "password"))).
Proof.
  destruct e as [r req| |i m|i]; simpl.
  - destruct r; simpl; auto.
    + destruct (post_register_cases req fresh_res s) as [[_ ->]|[Hfree ->]];
        [by left|]. right. by exists req.
    + destruct (post_login_state req fresh_res s) as [r ->]. by left.
  - by left.
  - left. destruct (sockets s !! i) as [ws|]; [|done].
    destruct (readyState ws); [|done].
    generalize (on_message ws). intros ls. revert s.
    induction ls as [|[] ls IH]; intros s; simpl; [done|].
    by rewrite IH.
  - left. by destruct (sockets s !! i).
Qed.

(** A stored record is never replaced nor removed. *)
Lemma step_get s e k user :
  JSMap.get (users s) k = Some user → JSMap.get (users (step s e)) k = Some user.
Proof.
  intros Hk. destruct (step_users s e) as [->|(req & _ & Hfree & ->)]; [done|].
  rewrite jsmap_get_set_ne; [done|].
  intros <-. apply jsmap_has_false_get in Hfree. congruence.
Qed.

Lemma run_get s es k user :
  JSMap.get (users s) k = Some user → JSMap.get (users (run s es)) k = Some user.
Proof.
  unfold run. revert s. induction es as [|e es IH]; intros s Hk; simpl; [done|].
  by apply IH, step_get.
Qed.

Lemma step_keys_NoDup s e :
  NoDup (JSMap.keys (users s)) → NoDup (JSMap.keys (users (step s e))).
Proof.
  intros Hnd. destruct (step_users s e) as [->|(req & _ & _ & ->)]; [done|].
  by apply jsmap_set_NoDup.
Qed.

(** Every socket the server holds was greeted once and never written to
    again: on a new connection the greeting goes out on the accepted
    socket, and no other event sends anything. *)
Lemma step_outboxes s e :
  Forall (λ ws, outbox ws = [handshake]) (sockets s) →
  Forall (λ ws, outbox ws = [handshake]) (sockets (step s e)).
Proof.
  intros Hall. destruct e as [r req| |i m|i]; simpl.
  - destruct r; simpl; try done.
    + by destruct (post_register_cases req fresh_res s) as [[_ ->]|[_ ->]].
    + by destruct (post_login_state req fresh_res s) as [r ->].
  - apply Forall_app. split; [done|]. by apply Forall_singleton.
  - destruct (sockets s !! i) as [ws|]; [|done].
    destruct (readyState ws); [|done].
    generalize (on_message ws). intros ls. revert s Hall.
    induction ls as [|[] ls IH]; intros s Hall; simpl; [done|].
    by apply IH.
  - destruct (sockets s !! i) as [ws|] eqn:Hi; [|done]. simpl.
    apply Forall_insert; [done|].
    by apply (Forall_lookup_1 _ _ _ _ Hall Hi).
Qed.

(** ** Login *)

(** C1. A login request is answered 400 [{error: "Invalid username"}] when
    the user name is not in the credential store, 400
    [{error: "Invalid password"}] when it is there and [validatePassword]
    rejects the submitted password against the stored hash, and 200
    [{message: "Login successful!"}] otherwise; a user name that is in the
    store always has a stored record, so the handler always answers. *)
Theorem login_response req res s :
  let userName := prop (body req) "userName" in
  let password := prop (body req) "password" in
  (JSMap.has (users s) userName = false →
     post_login req res s =
       Some (s, reply 400 (error_obj "Invalid username")))
  ∧ (JSMap.has (users s) userName = true →
       ∃ user, JSMap.get (users s) userName = Some user)
  ∧ (∀ user, JSMap.get (users s) userName = Some user →
       validatePassword password (prop user "password") = false →
       post_login req res s =
         Some (s, reply 400 (error_obj "Invalid password")))
  ∧ (∀ user, JSMap.get (users s) userName = Some user →
       validatePassword password (prop user "password") = true →
       post_login req res s =
         Some (s, reply 200 (message_obj "Login successful!"))).
Proof.
  intros userName password.
  pose proof (post_login_cases req res s) as Hcases.
  fold userName password in Hcases. split_and!.
  - intros Hfree%jsmap_has_false_get.
    destruct Hcases as [[_ ?]|[(u&Hu&_)|(u&Hu&_)]]; [done|congruence..].
  - intros Hhas. by apply jsmap_has_get in Hhas.
  - intros user Huser Hv.
    destruct Hcases as [[Hn _]|[(u&Hu&_&?)|(u&Hu&Hv'&_)]];
      [congruence|done|congruence].
  - intros user Huser Hv.
    destruct Hcases as [[Hn _]|[(u&Hu&Hv'&_)|(u&Hu&_&?)]];
      [congruence|congruence|done].
Qed.

(** C9. Login only reads the credential store: whatever the store and the
    request, the handler answers and [users] afterwards is [users]
    before; the same holds for the login event of the event loop. *)
Theorem login_read_only req res s :
  (λ out, users out.1) <$> post_login req res s = Some (users s)
  ∧ users (step s (Http PostLogin req)) = users s.
Proof.
  split.
  - by destruct (post_login_state req res s) as [r ->].
  - simpl. by destruct (post_login_state req fresh_res s) as [r ->].
Qed.

(** ** Registration *)

(** C2. A register request is answered 400
    [{error: "Username already taken"}] exactly when the user name is
    already in the credential store.  Otherwise it is answered 200
    [{message: "Registration successful! Please log in."}] and the store
    then holds, under that user name, the request body with its password
    field replaced by [hashPassword] of the submitted password.  After a
    successful registration every later registration of the same user
    name is answered 400 [{error: "Username already taken"}]. *)
Theorem register_response req res s :
  let userName := prop (body req) "userName" in
  let password := prop (body req) "password" in
  (snd <$> post_register req res s =
     Some (reply 400 (error_obj "Username already taken"))
   ↔ JSMap.has (users s) userName = true)
  ∧ (JSMap.has (users s) userName = false →
       ∃ s' record,
         post_register req res s =
           Some (s', reply 200
                       (message_obj "Registration successful! Please log in."))
         ∧ JSMap.get (users s') userName = Some record
         ∧ record = spread_with (body req) "password" (hashPassword password)
         ∧ prop record "password" = hashPassword password)
  ∧ (∀ s' es req2 res2,
       post_register req res s =
         Some (s', reply 200
                     (message_obj "Registration successful! Please log in.")) →
       prop (body req2) "userName" = userName →
       post_register req2 res2 (run s' es) =
         Some (run s' es, reply 400 (error_obj "Username already taken"))).
Proof.
  intros userName password.
  pose proof (post_register_cases req res s) as Hcases.
  fold userName password in Hcases. split_and!.
  - destruct Hcases as [[Hhas ->]|[Hfree ->]]; simpl.
    + done.
    + split; [intros [=] | congruence].
  - intros Hfree. destruct Hcases as [[Hhas _]|[_ ->]]; [congruence|].
    eexists _, _. split; [done|]. simpl. rewrite jsmap_get_set_eq.
    split_and!; [done..|]. unfold prop, spread_with.
    by rewrite lookup_insert_eq.
  - intros s' es req2 res2 Hreg Hname.
    destruct Hcases as [[_ Hdup]|[_ Hok]].
    { rewrite Hdup in Hreg. discriminate Hreg. }
    rewrite Hok in Hreg. injection Hreg as <-.
    destruct (post_register_cases req2 res2 (run (set_users
      (JSMap.set (users s) userName
         (spread_with (body req) "password" (hashPassword password))) s) es))
      as [[_ ->]|[Hfree _]]; [done|].
    rewrite Hname in Hfree. apply jsmap_has_false_get in Hfree.
    erewrite run_get in Hfree; [discriminate|].
    simpl. apply jsmap_get_set_eq.
Qed.

(** C6. A register request answered 400
    [{error: "Username already taken"}] leaves the server, and with it
    every entry of the credential store, exactly as it was. *)
Theorem register_duplicate_unchanged req res s s' :
  post_register req res s =
    Some (s', reply 400 (error_obj "Username already taken")) →
  s' = s
  ∧ users s' = users s
  ∧ ∀ k, JSMap.get (users s') k = JSMap.get (users s) k.
Proof.
  intros Hreg.
  destruct (post_register_cases req res s) as [[_ Hdup]|[_ Hok]].
  - rewrite Hdup in Hreg. by injection Hreg as <-.
  - rewrite Hok in Hreg. discriminate Hreg.
Qed.

(** C3. With a capability under which a password verifies against its own
    hash and no other password does: once a registration has succeeded,
    then, whatever happens on the server afterwards, a login with the
    same user name and the same password is answered 200
    [{message: "Login successful!"}] and a login with the same user name
    and any other password is answered 400 [{error: "Invalid password"}]. *)
Theorem register_then_login req res s s' es lreq lres :
  (∀ raw, validatePassword raw (hashPassword raw) = true) →
  (∀ raw wrong, wrong ≠ raw → validatePassword wrong (hashPassword raw) = false) →
  post_register req res s =
    Some (s', reply 200
                (message_obj "Registration successful! Please log in.")) →
  prop (body lreq) "userName" = prop (body req) "userName" →
  (prop (body lreq) "password" = prop (body req) "password" →
     post_login lreq lres (run s' es) =
       Some (run s' es, reply 200 (message_obj "Login successful!")))
  ∧ (prop (body lreq) "password" ≠ prop (body req) "password" →
       post_login lreq lres (run s' es) =
         Some (run s' es, reply 400 (error_obj "Invalid password"))).
Proof.
  intros Hverify Hreject Hreg Hname.
  destruct (post_register_cases req res s) as [[_ Hdup]|[_ Hok]].
  { rewrite Hdup in Hreg. discriminate Hreg. }
  rewrite Hok in Hreg. injection Hreg as <-.
  set (u := prop (body req) "userName") in *.
  set (p := prop (body req) "password") in *.
  set (record := spread_with (body req) "password" (hashPassword p)).
  assert (JSMap.get (users (run (set_users (JSMap.set (users s) u record) s) es)) u
          = Some record) as Hrec.
  { apply run_get. simpl. apply jsmap_get_set_eq. }
  assert (prop record "password" = hashPassword p) as Hpw.
  { unfold record, prop, spread_with. by rewrite lookup_insert_eq. }
  destruct (post_login_cases lreq lres
              (run (set_users (JSMap.set (users s) u record) s) es))
    as [[Hnone _]|[(r & Hr & Hv & Hout)|(r & Hr & Hv & Hout)]];
    rewrite Hname in *; fold u in Hrec; try congruence.
  - assert (r = record) as -> by congruence. rewrite Hpw in Hv. split.
    + intros Hsame. rewrite Hsame, Hverify in Hv. discriminate.
    + done.
  - assert (r = record) as -> by congruence. rewrite Hpw in Hv. split.
    + done.
    + intros Hdiff. rewrite Hreject in Hv by done. discriminate.
Qed.

(** C4. User names are unique: from the empty credential store, after any
    sequence of requests (register, login, logout, profile, groups and the
    page routes) and socket events, no user name occurs twice among the
    keys of the store, so the store holds at most one record for each
    user name. *)
Theorem username_unique es :
  NoDup (JSMap.keys (users (run boot es)))
  ∧ ∀ u, length (JSMap.records (users (run boot es)) u) ≤ 1.
Proof.
  assert (∀ s, NoDup (JSMap.keys (users s)) →
               NoDup (JSMap.keys (users (run s es)))) as Hrun.
  { unfold run. induction es as [|e es IH]; intros s Hs; simpl; [done|].
    by apply IH, step_keys_NoDup. }
  assert (NoDup (JSMap.keys (users (run boot es)))) as Hnd.
  { apply Hrun. simpl. apply NoDup_nil_2. }
  split; [done|]. intros u. by apply jsmap_records_NoDup.
Qed.

(** ** Logout, profile and groups *)

(** C8. Logout cannot fail: in every state it answers 200
    [{message: "Logout successful!"}] and leaves the state as it is, and a
    second logout gives the same response and the same state as one. *)
Theorem logout_idempotent req res req2 res2 s :
  get_logout req res s =
    Some (s, reply 200 (message_obj "Logout successful!"))
  ∧ get_logout req res s ≫= (λ out, get_logout req2 res2 out.1)
    = get_logout req res s
  ∧ step (step s (Http GetLogout req)) (Http GetLogout req2)
    = step s (Http GetLogout req).
Proof. by split_and!. Qed.

(** C10. Profile and groups check nothing and change nothing: in every
    state, the one the server boots in included, profile answers 200
    [{message: "Profile settings"}] and groups answers 200
    [{message: "Interest groups"}], and the state, with its credential
    store, stays as it is. *)
Theorem profile_groups_static req res s :
  get_profile req res s =
    Some (s, reply 200 (message_obj "Profile settings"))
  ∧ get_groups req res s =
    Some (s, reply 200 (message_obj "Interest groups"))
  ∧ respond GetProfile req boot =
    Some (reply 200 (message_obj "Profile settings"))
  ∧ respond GetGroups req boot =
    Some (reply 200 (message_obj "Interest groups"))
  ∧ users (step s (Http GetProfile req)) = users s
  ∧ users (step s (Http GetGroups req)) = users s.
Proof. by split_and!. Qed.

(** ** Sockets *)

(** C7. When a connection opens, the handler sends
    [{message: "WebSocket connection established"}] on the accepted
    socket, whatever the state of the server (it does not look at the
    credential store), and the socket joins the server's sockets with
    that one payload sent; and after any sequence of requests and socket
    events, what the server has sent on each of its sockets is exactly
    that one payload. *)
Theorem handshake_on_open s es :
  (∃ ws, on_connection accepted_socket s = Some (ws, s)
     ∧ readyState ws = OPEN
     ∧ outbox ws = [message_obj "WebSocket connection established"]
     ∧ sockets (step s WsConnection) = sockets s ++ [ws])
  ∧ Forall (λ ws, outbox ws = [message_obj "WebSocket connection established"])
      (sockets (run boot es)).
Proof.
  split; [by eexists|].
  assert (∀ s0, Forall (λ ws, outbox ws = [handshake]) (sockets s0) →
                Forall (λ ws, outbox ws = [handshake]) (sockets (run s0 es)))
    as Hrun.
  { unfold run. induction es as [|e es IH]; intros s0 Hs0; simpl; [done|].
    by apply IH, step_outboxes. }
  apply Hrun. simpl. apply Forall_nil_2.
Qed.

End Properties.

(** ** The sample capability *)

Lemma demo_verify_own raw :
  @validatePassword demo_capability raw (@hashPassword demo_capability raw)
  = true.
Proof. simpl. by apply bool_decide_eq_true. Qed.

Lemma demo_hash_inj raw raw' : demo_hash raw = demo_hash raw' → raw = raw'.
Proof. intros Heq. destruct raw, raw'; cbv in Heq; congruence. Qed.

Lemma demo_verify_other raw wrong :
  wrong ≠ raw →
  @validatePassword demo_capability wrong (@hashPassword demo_capability raw)
  = false.
Proof.
  intros Hne. simpl. apply bool_decide_eq_false.
  intros Heq. by apply Hne, demo_hash_inj.
Qed.

(** ** The theorems at the sample requests *)

(** On the server where alice signed up: bob is unknown, alice's wrong
    password is rejected, alice's password is accepted. *)
Lemma login_response_witness :
  @post_login demo_capability bob fresh_res alice_registered =
    Some (alice_registered, reply 400 (error_obj "Invalid username"))
  ∧ @post_login demo_capability alice_bad fresh_res alice_registered =
    Some (alice_registered, reply 400 (error_obj "Invalid password"))
  ∧ @post_login demo_capability alice fresh_res alice_registered =
    Some (alice_registered, reply 200 (message_obj "Login successful!")).
Proof.
  split_and!.
  - apply (@login_response demo_capability bob fresh_res alice_registered).
    vm_compute. reflexivity.
  - eapply (@login_response demo_capability alice_bad fresh_res
              alice_registered); vm_compute; reflexivity.
  - eapply (@login_response demo_capability alice fresh_res
              alice_registered); vm_compute; reflexivity.
Defined.

(** alice signs up on the fresh server; bob's name is then still free and
    alice's is taken, also after a login and a new connection. *)
Lemma register_response_witness :
  JSMap.has (users boot) (JStr "alice") = false
  ∧ (∃ s' record,
       @post_register demo_capability alice fresh_res boot =
         Some (s', reply 200
                     (message_obj "Registration successful! Please log in."))
       ∧ JSMap.get (users s') (JStr "alice") = Some record
       ∧ record = spread_with (body alice) "password" (JStr "#pw1")
       ∧ prop record "password" = JStr "#pw1")
  ∧ @post_register demo_capability alice_bad fresh_res alice_connected =
    Some (alice_connected, reply 400 (error_obj "Username already taken")).
Proof.
  split_and!.
  - reflexivity.
  - apply (@register_response demo_capability alice fresh_res boot).
    reflexivity.
  - apply (proj2 (proj2 (@register_response demo_capability
                           (signup_form "alice" "pw1" "alice@example.org")
                           fresh_res boot))
             alice_registered [Http PostLogin alice; WsConnection]
             alice_bad fresh_res);
      vm_compute; reflexivity.
Defined.

Lemma register_duplicate_unchanged_witness :
  @post_register demo_capability alice_bad fresh_res alice_registered =
    Some (alice_registered, reply 400 (error_obj "Username already taken"))
  ∧ users alice_registered = users alice_registered.
Proof.
  assert (@post_register demo_capability alice_bad fresh_res alice_registered =
            Some (alice_registered,
                  reply 400 (error_obj "Username already taken"))) as Hdup.
  { vm_compute. reflexivity. }
  split; [exact Hdup|].
  apply (@register_duplicate_unchanged demo_capability alice_bad fresh_res
           alice_registered alice_registered Hdup).
Defined.

(** After alice signed up with "pw1", and a login and a connection later,
    "pw1" logs her in and "bad" does not. *)
Lemma register_then_login_witness :
  @post_login demo_capability alice fresh_res alice_connected =
    Some (alice_connected, reply 200 (message_obj "Login successful!"))
  ∧ @post_login demo_capability alice_bad fresh_res alice_connected =
    Some (alice_connected, reply 400 (error_obj "Invalid password")).
Proof.
  split.
  - apply (@register_then_login demo_capability
             (signup_form "alice" "pw1" "alice@example.org") fresh_res boot
             alice_registered [Http PostLogin alice; WsConnection]
             alice fresh_res demo_verify_own demo_verify_other);
      vm_compute; reflexivity.
  - apply (@register_then_login demo_capability
             (signup_form "alice" "pw1" "alice@example.org") fresh_res boot
             alice_registered [Http PostLogin alice; WsConnection]
             alice_bad fresh_res demo_verify_own demo_verify_other);
      [vm_compute; reflexivity .. | vm_compute; congruence].
Defined.

(** * The store, the sockets and the console along a run *)

Lemma jsmap_has_set {V : Type} (m : JSMap.t V) (k k' : jsval) (v : V) :
  JSMap.has (JSMap.set m k v) k' = true ↔ JSMap.has m k' = true ∨ k = k'.
Proof.
  rewrite !jsmap_has_get. destruct (decide (k = k')) as [->|Hne].
  - rewrite jsmap_get_set_eq. split; eauto.
  - rewrite jsmap_get_set_ne by done. split; [auto | intros [?|?]; done].
Qed.

Lemma jsmap_set_fresh {V : Type} (m : JSMap.t V) (k : jsval) (v : V) :
  JSMap.has m k = false → JSMap.set m k v = m ++ [(k, v)].
Proof.
  induction m as [|[k' v'] m IH]; simpl; [done|].
  destruct (decide (k' = k)); [discriminate|].
  intros Hm. by rewrite IH.
Qed.

Section History.

Context `{PasswordCapability}.

Implicit Types (req : request) (res : response) (s : server).

Lemma run_app s es1 es2 : run s (es1 ++ es2) = run (run s es1) es2.
Proof. apply foldl_app. Qed.

Lemma run_snoc s es e : run s (es ++ [e]) = step (run s es) e.
Proof. by rewrite run_app. Qed.

(** A user name is in the store after an event when it was there before
    or the event is a registration of it. *)
Lemma step_has s e k :
  JSMap.has (users (step s e)) k = true
  ↔ JSMap.has (users s) k = true
    ∨ ∃ req, e = Http PostRegister req ∧ prop (body req) "userName" = k.
Proof.
  destruct (step_users s e) as [Hsame|(req & -> & Hfree & Hset)].
  - rewrite Hsame. split; [auto|]. intros [?|(req & -> & <-)]; [done|].
    simpl in Hsame.
    destruct (post_register_cases req fresh_res s) as [[? _]|[_ Hok]]; [done|].
    rewrite Hok in Hsame. simpl in Hsame. rewrite <- Hsame.
    apply jsmap_has_set. by right.
  - rewrite Hset, jsmap_has_set. split.
    + intros [?|<-]; [by left|]. right. by exists req.
    + intros [?|(req' & [= <-] & <-)]; auto.
Qed.

Lemma run_has s es k :
  JSMap.has (users (run s es)) k = true
  ↔ JSMap.has (users s) k = true
    ∨ ∃ req, Http PostRegister req ∈ es ∧ prop (body req) "userName" = k.
Proof.
  unfold run. revert s. induction es as [|e es IH]; intros s; simpl.
  - split; [auto|]. intros [?|(req & Hin & _)]; [done|]. by inversion Hin.
  - rewrite IH, step_has. split.
    + intros [[?|(req & -> & <-)]|(req & Hin & <-)]; [by left|right..].
      * exists req. split; [apply list_elem_of_here|done].
      * exists req. split; [by apply list_elem_of_further|done].
    + intros [?|(req & Hin & <-)]; [by left; left|].
      apply elem_of_cons in Hin as [<-|Hin].
      * left. right. by exists req.
      * right. by exists req.
Qed.

(** Among the registrations of a user name in a run there is a first. *)
Lemma first_registration (es : list event) k :
  (∃ req, Http PostRegister req ∈ es ∧ prop (body req) "userName" = k) →
  ∃ es1 req es2,
    es = es1 ++ Http PostRegister req :: es2
    ∧ prop (body req) "userName" = k
    ∧ ∀ req', Http PostRegister req' ∈ es1 → prop (body req') "userName" ≠ k.
Proof.
  induction es as [|e es IH]; intros (req & Hin & Hk); [by inversion Hin|].
  assert ((∃ req0, e = Http PostRegister req0 ∧ prop (body req0) "userName" = k)
          ∨ ∀ req0, e = Http PostRegister req0 → prop (body req0) "userName" ≠ k)
    as [(req0 & -> & Hk0)|Hother].
  { destruct e as [[] req0| | |]; try (right; intros ? [=]; done).
    destruct (decide (prop (body req0) "userName" = k)) as [Heq|Hne].
    - left. by exists req0.
    - right. by intros ? [= <-]. }
  - exists [], req0, es. split_and!; [done..|]. intros req' Hnil. by inversion Hnil.
  - apply elem_of_cons in Hin as [<-|Hin]; [by destruct (Hother req)|].
    destruct IH as (es1 & req1 & es2 & -> & Hk1 & Hfirst); [by exists req|].
    exists (e :: es1), req1, es2. split_and!; [done..|].
    intros req' [<-|Hin']%elem_of_cons; [by apply Hother | by apply Hfirst].
Qed.

(** The first registration of a user name in a run from the empty store
    decides the record kept under it. *)
Lemma first_registration_record es1 req es2 :
  (∀ req', Http PostRegister req' ∈ es1 →
           prop (body req') "userName" ≠ prop (body req) "userName") →
  JSMap.get (users (run boot (es1 ++ Http PostRegister req :: es2)))
    (prop (body req) "userName")
  = Some (spread_with (body req) "password"
            (hashPassword (prop (body req) "password"))).
Proof.
  intros Hfirst. rewrite run_app. unfold run at 1. simpl. fold (run boot es1).
  apply run_get.
  destruct (post_register_cases req fresh_res (run boot es1))
    as [[Htaken _]|[_ ->]].
  - apply run_has in Htaken as [Hboot|(req' & Hin & Heq)]; [done|].
    by destruct (Hfirst req' Hin).
  - simpl. apply jsmap_get_set_eq.
Qed.

(** Every socket of a run was given the logging listener, once. *)
Lemma step_listeners s e :
  Forall (λ ws, on_message ws = [LogReceived]) (sockets s) →
  Forall (λ ws, on_message ws = [LogReceived]) (sockets (step s e)).
Proof.
  intros Hall. destruct e as [r req| |i m|i]; simpl.
  - destruct r; simpl; try done.
    + by destruct (post_register_cases req fresh_res s) as [[_ ->]|[_ ->]].
    + by destruct (post_login_state req fresh_res s) as [r ->].
  - apply Forall_app. split; [done|]. by apply Forall_singleton.
  - destruct (sockets s !! i) as [ws|] eqn:Hi; [|done].
    destruct (readyState ws); [|done].
    rewrite (Forall_lookup_1 _ _ _ _ Hall Hi). by simpl.
  - destruct (sockets s !! i) as [ws|] eqn:Hi; [|done]. simpl.
    apply Forall_insert; [done|].
    by apply (Forall_lookup_1 _ _ _ _ Hall Hi).
Qed.

Lemma run_listeners es :
  Forall (λ ws, on_message ws = [LogReceived]) (sockets (run boot es)).
Proof.
  induction es as [|e es IH] using rev_ind; [apply Forall_nil_2|].
  rewrite run_snoc. by apply step_listeners.
Qed.

(** An HTTP request touches neither the sockets nor the console. *)
Lemma step_http_frame s r req :
  sockets (step s (Http r req)) = sockets s
  ∧ console (step s (Http r req)) = console s.
Proof.
  simpl. destruct r; simpl; try done.
  - by destruct (post_register_cases req fresh_res s) as [[_ ->]|[_ ->]].
  - by destruct (post_login_state req fresh_res s) as [r ->].
Qed.

(** ** The credential store as a function of the requests *)

(** X1. After any run from the empty store, a user name is in the store
    exactly when some register request of the run carried it. *)
Theorem registered_iff_requested es k :
  JSMap.has (users (run boot es)) k = true
  ↔ ∃ req, Http PostRegister req ∈ es ∧ prop (body req) "userName" = k.
Proof.
  rewrite run_has. split; [|by right]. by intros [Hboot|?].
Qed.

(** X2. The first registration of a user name wins: when no earlier
    register request of the run carried the name, the store after the run
    holds under it exactly one record, the body of that request with its
    password replaced by the hash, whatever requests came later. *)
Theorem first_registration_wins es1 req es2 :
  (∀ req', Http PostRegister req' ∈ es1 →
           prop (body req') "userName" ≠ prop (body req) "userName") →
  JSMap.records (users (run boot (es1 ++ Http PostRegister req :: es2)))
    (prop (body req) "userName")
  = [spread_with (body req) "password"
       (hashPassword (prop (body req) "password"))].
Proof.
  intros Hfirst.
  pose proof (first_registration_record es1 req es2 Hfirst) as Hget.
  apply jsmap_records_get in Hget.
  assert (NoDup (JSMap.keys
            (users (run boot (es1 ++ Http PostRegister req :: es2))))) as Hnd.
  { generalize (es1 ++ Http PostRegister req :: es2). intros es.
    induction es as [|e es IH] using rev_ind; [apply NoDup_nil_2|].
    rewrite run_snoc. by apply step_keys_NoDup. }
  apply (jsmap_records_NoDup _ (prop (body req) "userName")) in Hnd.
  destruct (JSMap.records _ _) as [|r [|r' rs]]; simpl in Hnd.
  - by inversion Hget.
  - by apply list_elem_of_singleton in Hget as ->.
  - lia.
Qed.

(** X3. Every record in the store after a run from the empty store is the
    body of a register request of that run with only its password field
    changed, to the hash of the submitted password: the record's userName
    field is the key it is stored under and every other field is as it
    was submitted. *)
Theorem stored_records_are_request_bodies es k record :
  JSMap.get (users (run boot es)) k = Some record →
  ∃ req, Http PostRegister req ∈ es
    ∧ prop (body req) "userName" = k
    ∧ record = spread_with (body req) "password"
                 (hashPassword (prop (body req) "password"))
    ∧ prop record "userName" = k
    ∧ ∀ f, f ≠ "password" → prop record f = prop (body req) f.
Proof.
  intros Hget.
  assert (JSMap.has (users (run boot es)) k = true) as Hhas.
  { apply jsmap_has_get. by exists record. }
  apply run_has in Hhas as [Hboot|Hreq]; [done|].
  apply first_registration in Hreq as (es1 & req & es2 & -> & <- & Hfirst).
  rewrite (first_registration_record es1 req es2 Hfirst) in Hget.
  injection Hget as <-. exists req.
  assert (∀ f, f ≠ "password" →
            prop (spread_with (body req) "password"
                    (hashPassword (prop (body req) "password"))) f
            = prop (body req) f) as Hfields.
  { intros f Hf. unfold prop, spread_with. by rewrite lookup_insert_ne. }
  split_and!; [|done..|by apply Hfields|done].
  apply elem_of_app. right. apply list_elem_of_here.
Qed.

(** X4. In terms of the requests served since the start: a login is
    answered 200 [{message: "Login successful!"}] exactly when the user
    name was registered and [validatePassword] accepts the submitted
    password against the hash of the password of the first registration
    of that name. *)
Theorem login_succeeds_iff es req res :
  post_login req res (run boot es) =
    Some (run boot es, reply 200 (message_obj "Login successful!"))
  ↔ ∃ es1 rreq es2,
      es = es1 ++ Http PostRegister rreq :: es2
      ∧ prop (body rreq) "userName" = prop (body req) "userName"
      ∧ (∀ req', Http PostRegister req' ∈ es1 →
           prop (body req') "userName" ≠ prop (body req) "userName")
      ∧ validatePassword (prop (body req) "password")
          (hashPassword (prop (body rreq) "password")) = true.
Proof.
  assert (∀ rreq, prop (spread_with (body rreq) "password"
                          (hashPassword (prop (body rreq) "password")))
                    "password"
                  = hashPassword (prop (body rreq) "password")) as Hpw.
  { intros rreq. unfold prop, spread_with. by rewrite lookup_insert_eq. }
  split.
  - intros Hlogin.
    destruct (post_login_cases req res (run boot es))
      as [[_ Hout]|[(user & _ & _ & Hout)|(user & Hget & Hv & _)]];
      [rewrite Hout in Hlogin; discriminate Hlogin..|].
    assert (JSMap.has (users (run boot es)) (prop (body req) "userName") = true)
      as Hhas.
    { apply jsmap_has_get. by exists user. }
    apply run_has in Hhas as [Hboot|Hreq]; [done|].
    apply first_registration in Hreq as (es1 & rreq & es2 & -> & Hname & Hfirst).
    exists es1, rreq, es2. split_and!; [done..|].
    rewrite <- Hname in Hget, Hfirst.
    rewrite (first_registration_record es1 rreq es2 Hfirst) in Hget.
    injection Hget as <-. by rewrite Hpw in Hv.
  - intros (es1 & rreq & es2 & -> & Hname & Hfirst & Hv).
    rewrite <- Hname in Hfirst.
    pose proof (first_registration_record es1 rreq es2 Hfirst) as Hrec.
    rewrite Hname in Hrec.
    destruct (post_login_cases req res
                (run boot (es1 ++ Http PostRegister rreq :: es2)))
      as [[Hnone _]|[(user & Hget & Hbad & _)|(user & _ & _ & Hout)]].
    + congruence.
    + rewrite Hrec in Hget. injection Hget as <-. rewrite Hpw in Hbad.
      congruence.
    + done.
Qed.

(** X5. A registration touches one key: the records of all other user
    names, the sockets and the console are the same after a register
    request as before it, whether it succeeded or not. *)
Theorem register_touches_one_key req res s s' r k :
  post_register req res s = Some (s', r) →
  k ≠ prop (body req) "userName" →
  JSMap.get (users s') k = JSMap.get (users s) k
  ∧ sockets s' = sockets s
  ∧ console s' = console s.
Proof.
  intros Hreg Hk.
  destruct (post_register_cases req res s) as [[_ Hout]|[_ Hout]];
    rewrite Hout in Hreg; injection Hreg as <- _; [done|].
  simpl. split_and!; [|done..]. by rewrite jsmap_get_set_ne.
Qed.

(** X6. The store is append-only: along any run, from any state, the
    entries the store had stay where they were, with the records they
    had, and new entries only come after them. *)
Theorem store_append_only s es :
  users s `prefix_of` users (run s es).
Proof.
  unfold run. revert s. induction es as [|e es IH]; intros s; simpl; [done|].
  etrans; [|apply IH].
  destruct (step_users s e) as [->|(req & _ & Hfree & ->)]; [done|].
  rewrite jsmap_set_fresh by done. by apply prefix_app_r.
Qed.

(** X7. Register does not insist on a user name: all requests whose body
    has no userName field share the key [undefined].  While that key is
    free the first such request is answered 200 and stored under it, and
    from then on, whatever requests and socket events come in between,
    every such request is answered 400
    [{error: "Username already taken"}] and changes nothing. *)
Theorem register_without_username req1 res1 req2 res2 s :
  body req1 !! "userName" = None →
  body req2 !! "userName" = None →
  JSMap.has (users s) JUndefined = false →
  ∃ s',
    post_register req1 res1 s =
      Some (s', reply 200
                  (message_obj "Registration successful! Please log in."))
    ∧ JSMap.get (users s') JUndefined =
        Some (spread_with (body req1) "password"
                (hashPassword (prop (body req1) "password")))
    ∧ ∀ es,
        post_register req2 res2 (run s' es) =
          Some (run s' es, reply 400 (error_obj "Username already taken")).
Proof.
  intros Hno1 Hno2 Hfree.
  assert (prop (body req1) "userName" = JUndefined) as Hu1.
  { unfold prop. by rewrite Hno1. }
  assert (prop (body req2) "userName" = JUndefined) as Hu2.
  { unfold prop. by rewrite Hno2. }
  destruct (post_register_cases req1 res1 s) as [[Htaken _]|[_ Hok]];
    [congruence|].
  rewrite Hu1 in Hok. eexists. split; [exact Hok|]. simpl.
  split; [apply jsmap_get_set_eq|]. intros es.
  match goal with |- post_register _ _ ?s1 = _ =>
    destruct (post_register_cases req2 res2 s1) as [[_ Hdup]|[Hfree2 _]]
  end; [done|].
  rewrite Hu2 in Hfree2. apply jsmap_has_false_get in Hfree2.
  erewrite run_get in Hfree2; [discriminate|].
  simpl. apply jsmap_get_set_eq.
Qed.

(** X12. The server keeps no session: of all HTTP requests only a
    registration answered 200 changes the server.  After a request to
    any other route, and after a register request answered otherwise, a
    login or a logout included, the state (credential store, sockets,
    console) is the state before it. *)
Theorem only_registration_changes_state r req res s s' resp :
  dispatch r req res s = Some (s', resp) →
  r ≠ PostRegister ∨ statusCode resp ≠ 200 →
  s' = s.
Proof.
  intros Hout Hwhy. destruct r; simpl in Hout;
    try (by injection Hout as <- _).
  - destruct (post_register_cases req res s) as [[_ Hdup]|[_ Hok]].
    + rewrite Hdup in Hout. by injection Hout as <- _.
    + rewrite Hok in Hout. injection Hout as _ <-.
      by destruct Hwhy as [Hr|Hcode].
  - destruct (post_login_state req res s) as [resp' Hlogin].
    rewrite Hlogin in Hout. by injection Hout as <- _.
Qed.

(** X11. Status and body of a JSON answer agree, on every route and in
    every state: a handler that answers with JSON answers either status
    200 with a [{message: ...}] or status 400 with an [{error: ...}], and
    the 400s come from POST /register and POST /login only. *)
Theorem json_answers_match_status r req res s s' resp o :
  dispatch r req res s = Some (s', resp) →
  sent resp = Some (Json o) →
  (statusCode resp = 200 ∧ ∃ m, o = message_obj m)
  ∨ (statusCode resp = 400 ∧ (∃ e, o = error_obj e)
     ∧ (r = PostRegister ∨ r = PostLogin)).
Proof.
  intros Hout Hjson. destruct r; simpl in Hout.
  - injection Hout as _ <-. discriminate Hjson.
  - injection Hout as _ <-. discriminate Hjson.
  - destruct (post_register_cases req res s) as [[_ Hcase]|[_ Hcase]];
      rewrite Hcase in Hout; injection Hout as _ <-;
      injection Hjson as <-; [right | left]; eauto.
  - injection Hout as _ <-. discriminate Hjson.
  - destruct (post_login_cases req res s)
      as [[_ Hcase]|[(?&_&_&Hcase)|(?&_&_&Hcase)]];
      rewrite Hcase in Hout; injection Hout as _ <-;
      injection Hjson as <-; [right | right | left]; eauto.
  - injection Hout as _ <-. injection Hjson as <-. left. eauto.
  - injection Hout as _ <-. injection Hjson as <-. left. eauto.
  - injection Hout as _ <-. injection Hjson as <-. left. eauto.
Qed.

(** ** Sockets and console *)

(** X8. HTTP traffic never reaches the sockets or the console: after any
    sequence of HTTP requests the sockets (their state, what was sent on
    them, their listeners) and the console are what they were. *)
Theorem http_run_frame s es :
  Forall (λ e, ∃ r req, e = Http r req) es →
  sockets (run s es) = sockets s ∧ console (run s es) = console s.
Proof.
  unfold run. revert s.
  induction es as [|e es IH]; intros s Hall; simpl; [done|].
  apply Forall_cons_1 in Hall as [(r & req & ->) Hall].
  destruct (IH (step s (Http r req)) Hall) as [-> ->].
  apply step_http_frame.
Qed.

(** X9. A message arriving on an open socket of a run is logged once, as
    the line ["Received message:"; m], and that is all: nothing is sent
    back and the store is not touched. *)
Theorem message_logged_once es i m ws :
  sockets (run boot es) !! i = Some ws →
  readyState ws = OPEN →
  step (run boot es) (WsMessage i m) =
    console_log ["Received message:"; m] (run boot es)
  ∧ sockets (step (run boot es) (WsMessage i m)) = sockets (run boot es)
  ∧ users (step (run boot es) (WsMessage i m)) = users (run boot es).
Proof.
  intros Hi Hopen.
  assert (step (run boot es) (WsMessage i m) =
            console_log ["Received message:"; m] (run boot es)) as ->.
  { simpl. rewrite Hi, Hopen.
    by rewrite (Forall_lookup_1 _ _ _ _ (run_listeners es) Hi). }
  done.
Qed.

(** X10. The console after a run holds the start-up line followed by one
    "Received message:" line for each of some messages of the run, and
    nothing else: no request body, user name or password is ever logged. *)
Theorem console_history es :
  ∃ ms, console (run boot es) =
          ["Server running on port 3000"]
          :: ((λ m, ["Received message:"; m]) <$> ms)
        ∧ ∀ m, m ∈ ms → ∃ i, WsMessage i m ∈ es.
Proof.
  induction es as [|e es (ms & Hms & Hsrc)] using rev_ind.
  - exists []. split; [done|]. intros m Hin. by inversion Hin.
  - rewrite run_snoc.
    assert (∀ m, m ∈ ms → ∃ i, WsMessage i m ∈ es ++ [e]) as Hsrc'.
    { intros m [i Hi]%Hsrc. exists i. apply elem_of_app. by left. }
    destruct e as [r req| |i m|i].
    + exists ms. by rewrite (proj2 (step_http_frame _ r req)).
    + by exists ms.
    + simpl. destruct (sockets (run boot es) !! i) as [ws|] eqn:Hi;
        [|by exists ms].
      destruct (readyState ws); [|by exists ms].
      rewrite (Forall_lookup_1 _ _ _ _ (run_listeners es) Hi). simpl.
      exists (ms ++ [m]). rewrite Hms, fmap_app. split; [done|].
      intros m' [Hin|Heq%list_elem_of_singleton]%elem_of_app; [auto|].
      subst m'. exists i. apply elem_of_app. right. apply list_elem_of_here.
    + simpl. destruct (sockets (run boot es) !! i); by exists ms.
Qed.

End History.

(** ** The run properties at the sample requests *)

(** bob signs up, then alice, then somebody tries alice's name with
    another password: alice's record is the one of her own request. *)
Lemma first_registration_wins_witness :
  JSMap.records
    (users (@run demo_capability boot
              ([Http PostRegister bob]
               ++ Http PostRegister alice :: [Http PostRegister alice_bad])))
    (prop (body alice) "userName")
  = [spread_with (body alice) "password"
       (@hashPassword demo_capability (prop (body alice) "password"))].
Proof.
  apply (@first_registration_wins demo_capability
           [Http PostRegister bob] alice [Http PostRegister alice_bad]).
  intros req' Hin.
  apply elem_of_cons in Hin as [Heq|Hin]; [|by apply elem_of_nil in Hin].
  injection Heq as ->. vm_compute. discriminate.
Defined.

Lemma stored_records_are_request_bodies_witness :
  ∃ req,
    Http PostRegister req
      ∈ [Http PostRegister (signup_form "alice" "pw1" "alice@example.org");
         Http PostRegister alice_bad]
    ∧ prop (body req) "userName" = JStr "alice"
    ∧ spread_with (body (signup_form "alice" "pw1" "alice@example.org"))
        "password" (JStr "#pw1")
      = spread_with (body req) "password"
          (@hashPassword demo_capability (prop (body req) "password"))
    ∧ prop (spread_with
              (body (signup_form "alice" "pw1" "alice@example.org"))
              "password" (JStr "#pw1")) "userName" = JStr "alice"
    ∧ ∀ f, f ≠ "password" →
        prop (spread_with
                (body (signup_form "alice" "pw1" "alice@example.org"))
                "password" (JStr "#pw1")) f
        = prop (body req) f.
Proof.
  apply (@stored_records_are_request_bodies demo_capability
           [Http PostRegister (signup_form "alice" "pw1" "alice@example.org");
            Http PostRegister alice_bad]
           (JStr "alice")).
  vm_compute. reflexivity.
Defined.

(** bob signing up leaves alice's record, the socket and the console. *)
Lemma register_touches_one_key_witness :
  JSMap.get
    (users (@step demo_capability alice_connected (Http PostRegister bob)))
    (JStr "alice")
  = JSMap.get (users alice_connected) (JStr "alice")
  ∧ sockets (@step demo_capability alice_connected (Http PostRegister bob))
    = sockets alice_connected
  ∧ console (@step demo_capability alice_connected (Http PostRegister bob))
    = console alice_connected.
Proof.
  apply (@register_touches_one_key demo_capability bob fresh_res
           alice_connected
           (@step demo_capability alice_connected (Http PostRegister bob))
           (reply 200 (message_obj "Registration successful! Please log in."))).
  - vm_compute. reflexivity.
  - vm_compute. discriminate.
Defined.

(** On the fresh server an empty body registers, and a body with only a
    password is turned away from then on. *)
Lemma register_without_username_witness :
  ∃ s',
    @post_register demo_capability {| body := ∅ |} fresh_res boot =
      Some (s', reply 200
                  (message_obj "Registration successful! Please log in."))
    ∧ JSMap.get (users s') JUndefined =
        Some (spread_with ∅ "password"
                (@hashPassword demo_capability (prop ∅ "password")))
    ∧ ∀ es,
        @post_register demo_capability
          {| body := {[ "password" := JStr "x" ]} |} fresh_res
          (@run demo_capability s' es) =
          Some (@run demo_capability s' es,
                reply 400 (error_obj "Username already taken")).
Proof.
  apply (@register_without_username demo_capability
           {| body := ∅ |} fresh_res
           {| body := {[ "password" := JStr "x" ]} |} fresh_res boot);
    reflexivity.
Defined.

(** alice logs in again on the server she is connected to: nothing moves. *)
Lemma only_registration_changes_state_witness :
  alice_connected = alice_connected.
Proof.
  apply (@only_registration_changes_state demo_capability PostLogin alice
           fresh_res alice_connected alice_connected
           (reply 200 (message_obj "Login successful!"))).
  - vm_compute. reflexivity.
  - left. discriminate.
Defined.

(** bob's login on the server where only alice signed up is a 400 with an
    error body. *)
Lemma json_answers_match_status_witness :
  (statusCode (reply 400 (error_obj "Invalid username")) = 200
   ∧ ∃ m, error_obj "Invalid username" = message_obj m)
  ∨ (statusCode (reply 400 (error_obj "Invalid username")) = 400
     ∧ (∃ e, error_obj "Invalid username" = error_obj e)
     ∧ (PostLogin = PostRegister ∨ PostLogin = PostLogin)).
Proof.
  apply (@json_answers_match_status demo_capability PostLogin bob fresh_res
           alice_registered alice_registered
           (reply 400 (error_obj "Invalid username"))
           (error_obj "Invalid username")).
  - vm_compute. reflexivity.
  - reflexivity.
Defined.

Lemma http_run_frame_witness :
  sockets (@run demo_capability alice_connected
             [Http PostLogin alice; Http GetLogout alice;
              Http PostRegister bob])
  = sockets alice_connected
  ∧ console (@run demo_capability alice_connected
               [Http PostLogin alice; Http GetLogout alice;
                Http PostRegister bob])
    = console alice_connected.
Proof.
  apply (@http_run_frame demo_capability alice_connected
           [Http PostLogin alice; Http GetLogout alice;
            Http PostRegister bob]).
  repeat (apply Forall_cons_2; [eexists _, _; reflexivity|]).
  apply Forall_nil_2.
Defined.

(** "hi" arrives on the socket opened after alice signed up. *)
Lemma message_logged_once_witness :
  @step demo_capability
    (@run demo_capability boot [Http PostRegister alice; WsConnection])
    (WsMessage 0 "hi")
  = console_log ["Received message:"; "hi"]
      (@run demo_capability boot [Http PostRegister alice; WsConnection])
  ∧ sockets (@step demo_capability
               (@run demo_capability boot
                  [Http PostRegister alice; WsConnection])
               (WsMessage 0 "hi"))
    = sockets (@run demo_capability boot
                 [Http PostRegister alice; WsConnection])
  ∧ users (@step demo_capability
             (@run demo_capability boot
                [Http PostRegister alice; WsConnection])
             (WsMessage 0 "hi"))
    = users (@run demo_capability boot
               [Http PostRegister alice; WsConnection]).
Proof.
  apply (@message_logged_once demo_capability
           [Http PostRegister alice; WsConnection] 0 "hi"
           {| readyState := OPEN; outbox := [handshake];
              on_message := [LogReceived] |});
    reflexivity.
Defined.
